(** * The bidirectional stream of quic-go ([stream.go])

    A [stream] embeds one [receiveStream] and one [sendStream] and adds a
    [version] field.  This development embeds the methods of [stream.go]:
    [newStream], [StreamID], [Close], [SetDeadline], [CloseForShutdown],
    [HandleRstStreamFrame], [Finished], and the two error types
    [deadlineError] and [streamCanceledError].

    The two half-streams, the [protocol] and the [wire] packages live in
    other files of the repository.  The half-streams are taken as
    parameters (type classes [SendStream] and [ReceiveStream]); every
    method of [stream.go] is written against these classes in a small
    state monad that also records, in order, each call made to a half. *)

From Stdlib Require Import NArith List Bool String Lia.
Import ListNotations.
Local Open Scope N_scope.

Set Implicit Arguments.

(** ** Package [protocol] *)

Module protocol.

(** Modelled from the spec: the type declarations of package [protocol]
    are missing.  The spec (section 3) calls the stream identifier an
    integer handle; [stream.go] assigns the literals 0 and 7 to
    [ApplicationErrorCode].  All four are unsigned integer types, whose
    Go zero value is 0. *)
Definition StreamID := N.
Definition ByteCount := N.
Definition ApplicationErrorCode := N.
Definition VersionNumber := N.

(** The value of a [VersionNumber] struct field that a composite literal
    does not list. *)
Definition VersionNumber_zero : VersionNumber := 0.

End protocol.

(** ** Package [wire] *)

Module wire.
Import protocol.

(** Modelled from the spec: the frame declarations of package [wire] are
    missing.  Section 6 of the spec lists their contents: STREAM-DATA
    (payload, offset, optional final marker), RESET (application error
    code, final offset), STOP-SENDING (application error code),
    MAX-STREAM-DATA (new credit limit); [stream.go] shows the fields
    [StreamID] and [ErrorCode].  The payload is kept as its length. *)
Record StreamFrame := {
  stream_StreamID : StreamID;
  stream_Offset : ByteCount;
  stream_DataLen : ByteCount;
  stream_FinBit : bool
}.

Record RstStreamFrame := {
  rst_StreamID : StreamID;
  rst_ErrorCode : ApplicationErrorCode;
  rst_ByteOffset : ByteCount
}.

Record StopSendingFrame := {
  stop_StreamID : StreamID;
  stop_ErrorCode : ApplicationErrorCode
}.

Record MaxStreamDataFrame := {
  max_StreamID : StreamID;
  max_ByteOffset : ByteCount
}.

(** The interface [wire.Frame], as the closed sum of the frames above. *)
Inductive Frame :=
| FStream (f : StreamFrame)
| FRstStream (f : RstStreamFrame)
| FStopSending (f : StopSendingFrame)
| FMaxStreamData (f : MaxStreamDataFrame).

End wire.

Import protocol wire.

(** ** Constants of [stream.go] *)

Definition errorCodeStopping : ApplicationErrorCode := 0.
Definition errorCodeStoppingGQUIC : ApplicationErrorCode := 7.

(** ** Error types *)

(** The interface [net.Error]: [Error], [Timeout], [Temporary]. *)
Class net_Error (T : Type) := {
  Error : T -> string;
  Timeout : T -> bool;
  Temporary : T -> bool
}.

(** [type deadlineError struct{}] *)
Inductive deadlineError : Set := mk_deadlineError.

#[global] Instance deadlineError_net_Error : net_Error deadlineError := {|
  Error := fun _ => "deadline exceeded"%string;
  Temporary := fun _ => true;
  Timeout := fun _ => true
|}.

(** [var errDeadline net.Error = &deadlineError{}] *)
Definition errDeadline : deadlineError := mk_deadlineError.

(** [type streamCanceledError struct { error; errorCode }].  The embedded
    [error] is an interface value; its dynamic type is the parameter
    [Err]. *)
Record streamCanceledError (Err : Type) := {
  embedded_error : Err;
  errorCode : ApplicationErrorCode
}.

(** The interface [StreamError]: an [error] with [Canceled] and
    [ErrorCode]. *)
Class StreamError (T : Type) := {
  Canceled : T -> bool;
  ErrorCode : T -> ApplicationErrorCode
}.

#[global] Instance streamCanceledError_StreamError (Err : Type) :
  StreamError (streamCanceledError Err) := {|
  Canceled := fun _ => true;
  ErrorCode := fun e => errorCode e
|}.

(** ** The half-streams, as interfaces *)

(** A Go [error] result: [None] is [nil]. *)
Definition error (E : Type) := option E.

(** The files of the two half-streams are not among the sources; their
    methods are the fields of two classes.  [E]: non-nil error values.
    [W]: the state of the session around the stream, on which the
    callbacks [onData] and [queueControlFrame] act and which receives what
    a half hands out.  [FC]: [flowcontrol.StreamFlowController].
    [Instant]: [time.Time]. *)
Module halves.

(** The methods of [sendStream] that [stream.go] calls, and [SM], the
    names of its remaining methods, which the embedding promotes to
    [stream] ([Write], [CancelWrite], [PopStreamFrame], ...).  A method
    with a pointer receiver takes the half and the session state and
    returns its result with both updated; the three accessors only
    read. *)
Class SendStream (E W FC Instant SM S : Type) := {
  newSendStream :
    StreamID -> (W -> W) -> (Frame -> W -> W) -> FC -> VersionNumber -> S;
  send_StreamID : S -> StreamID;
  send_Close : S -> W -> error E * S * W;
  send_getWriteOffset : S -> ByteCount;
  send_CloseForShutdown : error E -> S -> W -> S * W;
  send_HandleStopSendingFrame : StopSendingFrame -> S -> W -> S * W;
  send_Finished : S -> bool;
  send_SetWriteDeadline : Instant -> S -> W -> error E * S * W;
  send_promoted : SM -> S -> W -> S * W
}.

(** The same for [receiveStream]; [RM] names its remaining methods
    ([Read], [CancelRead], [HandleStreamFrame], ...). *)
Class ReceiveStream (E W FC Instant RM R : Type) := {
  newReceiveStream :
    StreamID -> (W -> W) -> (Frame -> W -> W) -> FC -> R;
  recv_StreamID : R -> StreamID;
  recv_onClose : ByteCount -> R -> W -> R * W;
  recv_CloseForShutdown : error E -> R -> W -> R * W;
  recv_HandleRstStreamFrame : RstStreamFrame -> R -> W -> error E * R * W;
  recv_Finished : R -> bool;
  recv_SetReadDeadline : Instant -> R -> W -> error E * R * W;
  recv_promoted : RM -> R -> W -> R * W
}.

End halves.

Import halves.

(** ** The stream *)

Section Stream.

Context {E W FC Instant SM RM S R : Type}.
Context {send : SendStream E W FC Instant SM S}.
Context {recv : ReceiveStream E W FC Instant RM R}.

(** [VersionNumber.UsesIETFFrameFormat], a method of package [protocol],
    is not among the sources; it is a parameter. *)
Variable UsesIETFFrameFormat : VersionNumber -> bool.

(** [type stream struct { receiveStream; sendStream; version }] *)
Record stream := {
  receiveStream : R;
  sendStream : S;
  version : VersionNumber
}.

(** A call from [stream.go] into one of the halves. *)
Inductive call :=
| SendStreamID
| SendClose
| SendGetWriteOffset
| SendCloseForShutdown (err : error E)
| SendHandleStopSendingFrame (frame : StopSendingFrame)
| SendFinished
| SendSetWriteDeadline (t : Instant)
| SendPromoted (m : SM)
| RecvOnClose (offset : ByteCount)
| RecvCloseForShutdown (err : error E)
| RecvHandleRstStreamFrame (frame : RstStreamFrame)
| RecvFinished
| RecvSetReadDeadline (t : Instant)
| RecvPromoted (m : RM).

(** What a method runs on: the receiver [self], the session state, and
    the calls made into the halves so far, oldest first. *)
Record state := {
  self : stream;
  world : W;
  calls : list call
}.

Definition M (A : Type) := state -> A * state.

Definition ret {A} (a : A) : M A := fun st => (a, st).

Definition bind {A B} (m : M A) (k : A -> M B) : M B :=
  fun st => let (a, st') := m st in k a st'.

Notation "x <- m ;; k" := (bind m (fun x => k))
  (at level 61, m at next level, right associativity).
Notation "m ;;; k" := (bind m (fun _ => k))
  (at level 61, right associativity).

(** Reading the receiver's own field [s.version]. *)
Definition get_version : M VersionNumber :=
  fun st => (version (self st), st).

(** Calling a method of the embedded [sendStream]. *)
Definition call_send {A} (c : call) (f : S -> W -> A * S * W) : M A :=
  fun st =>
    let '(a, ss, w) := f (sendStream (self st)) (world st) in
    (a, {| self := {| receiveStream := receiveStream (self st);
                      sendStream := ss;
                      version := version (self st) |};
           world := w;
           calls := calls st ++ [c] |}).

(** Calling a method of the embedded [receiveStream]. *)
Definition call_recv {A} (c : call) (f : R -> W -> A * R * W) : M A :=
  fun st =>
    let '(a, rs, w) := f (receiveStream (self st)) (world st) in
    (a, {| self := {| receiveStream := rs;
                      sendStream := sendStream (self st);
                      version := version (self st) |};
           world := w;
           calls := calls st ++ [c] |}).

Definition reads {X A} (f : X -> A) : X -> W -> A * X * W :=
  fun x w => (f x, x, w).

Definition updates {X} (f : X -> W -> X * W) : X -> W -> unit * X * W :=
  fun x w => let (x', w') := f x w in (tt, x', w').

Definition sendStream_StreamID : M StreamID :=
  call_send SendStreamID (reads send_StreamID).
Definition sendStream_Close : M (error E) :=
  call_send SendClose send_Close.
Definition sendStream_getWriteOffset : M ByteCount :=
  call_send SendGetWriteOffset (reads send_getWriteOffset).
Definition sendStream_CloseForShutdown (err : error E) : M unit :=
  call_send (SendCloseForShutdown err) (updates (send_CloseForShutdown err)).
Definition sendStream_Finished : M bool :=
  call_send SendFinished (reads send_Finished).
Definition receiveStream_onClose (offset : ByteCount) : M unit :=
  call_recv (RecvOnClose offset) (updates (recv_onClose offset)).
Definition receiveStream_CloseForShutdown (err : error E) : M unit :=
  call_recv (RecvCloseForShutdown err) (updates (recv_CloseForShutdown err)).
Definition receiveStream_HandleRstStreamFrame (frame : RstStreamFrame)
  : M (error E) :=
  call_recv (RecvHandleRstStreamFrame frame) (recv_HandleRstStreamFrame frame).
Definition receiveStream_Finished : M bool :=
  call_recv RecvFinished (reads recv_Finished).

(** Methods that [stream] has by promotion from the embedded halves. *)
Definition HandleStopSendingFrame (frame : StopSendingFrame) : M unit :=
  call_send (SendHandleStopSendingFrame frame)
            (updates (send_HandleStopSendingFrame frame)).
Definition SetReadDeadline (t : Instant) : M (error E) :=
  call_recv (RecvSetReadDeadline t) (recv_SetReadDeadline t).
Definition SetWriteDeadline (t : Instant) : M (error E) :=
  call_send (SendSetWriteDeadline t) (send_SetWriteDeadline t).
Definition promoted_send (m : SM) : M unit :=
  call_send (SendPromoted m) (updates (send_promoted m)).
Definition promoted_recv (m : RM) : M unit :=
  call_recv (RecvPromoted m) (updates (recv_promoted m)).

(** [newStream]: the composite literal lists [sendStream] and
    [receiveStream]; the field [version] is not listed and holds its
    zero value. *)
Definition newStream (streamID : StreamID) (onData : W -> W)
    (queueControlFrame : Frame -> W -> W) (flowController : FC)
    (version : VersionNumber) : stream :=
  {| sendStream :=
       newSendStream streamID onData queueControlFrame flowController version;
     receiveStream :=
       newReceiveStream streamID onData queueControlFrame flowController;
     version := VersionNumber_zero |}.

Definition StreamID : M protocol.StreamID :=
  sendStream_StreamID.

Definition Close : M (error E) :=
  err <- sendStream_Close ;;
  match err with
  | Some _ => ret err
  | None =>
      offset <- sendStream_getWriteOffset ;;
      receiveStream_onClose offset ;;;
      ret None
  end.

Definition SetDeadline (t : Instant) : M (error E) :=
  _ <- SetReadDeadline t ;;
  _ <- SetWriteDeadline t ;;
  ret None.

Definition CloseForShutdown (err : error E) : M unit :=
  sendStream_CloseForShutdown err ;;;
  receiveStream_CloseForShutdown err.

Definition HandleRstStreamFrame (frame : RstStreamFrame) : M (error E) :=
  err <- receiveStream_HandleRstStreamFrame frame ;;
  match err with
  | Some _ => ret err
  | None =>
      v <- get_version ;;
      (if negb (UsesIETFFrameFormat v) then
         id <- StreamID ;;
         HandleStopSendingFrame
           {| stop_StreamID := id; stop_ErrorCode := rst_ErrorCode frame |}
       else ret tt) ;;;
      ret None
  end.

Definition Finished : M bool :=
  a <- sendStream_Finished ;;
  if a then receiveStream_Finished else ret false.

(** *** Running methods *)

(** A method call on receiver [s] in session state [w], with an empty
    record of calls. *)
Definition run {A} (m : M A) (s : stream) (w : W) : A * state :=
  m {| self := s; world := w; calls := [] |}.

(** The stop-sending directives among recorded calls, in order. *)
Fixpoint stopSendingCalls (cs : list call) : list StopSendingFrame :=
  match cs with
  | [] => []
  | SendHandleStopSendingFrame f :: cs' => f :: stopSendingCalls cs'
  | _ :: cs' => stopSendingCalls cs'
  end.

(** The application error codes of these directives. *)
Definition stopSendingCodes (cs : list call) : list ApplicationErrorCode :=
  map stop_ErrorCode (stopSendingCalls cs).

(** The offsets passed to [onClose] among recorded calls, in order. *)
Fixpoint onCloseCalls (cs : list call) : list ByteCount :=
  match cs with
  | [] => []
  | RecvOnClose offset :: cs' => offset :: onCloseCalls cs'
  | _ :: cs' => onCloseCalls cs'
  end.

(** The method set of [*stream]: the methods defined in [stream.go] and
    the ones promoted from the two halves. *)
Inductive op :=
| OpStreamID
| OpClose
| OpSetDeadline (t : Instant)
| OpCloseForShutdown (err : error E)
| OpHandleRstStreamFrame (frame : RstStreamFrame)
| OpFinished
| OpHandleStopSendingFrame (frame : StopSendingFrame)
| OpSetReadDeadline (t : Instant)
| OpSetWriteDeadline (t : Instant)
| OpSend (m : SM)
| OpRecv (m : RM).

Definition ignore {A} (m : M A) : M unit := _ <- m ;; ret tt.

Definition exec (o : op) : M unit :=
  match o with
  | OpStreamID => ignore StreamID
  | OpClose => ignore Close
  | OpSetDeadline t => ignore (SetDeadline t)
  | OpCloseForShutdown err => CloseForShutdown err
  | OpHandleRstStreamFrame frame => ignore (HandleRstStreamFrame frame)
  | OpFinished => ignore Finished
  | OpHandleStopSendingFrame frame => HandleStopSendingFrame frame
  | OpSetReadDeadline t => ignore (SetReadDeadline t)
  | OpSetWriteDeadline t => ignore (SetWriteDeadline t)
  | OpSend m => promoted_send m
  | OpRecv m => promoted_recv m
  end.

(** A lifetime of the stream: method calls one after the other. *)
Fixpoint lifetime (os : list op) (st : state) : state :=
  match os with
  | [] => st
  | o :: os' => lifetime os' (snd (exec o st))
  end.

(** *** Contracts of the halves *)

(** A property of the send half that each of its methods keeps. *)
Record send_preserves (P : S -> Prop) : Prop := {
  keep_send_Close : forall s w,
    P s -> P (snd (fst (send_Close s w)));
  keep_send_CloseForShutdown : forall err s w,
    P s -> P (fst (send_CloseForShutdown err s w));
  keep_send_HandleStopSendingFrame : forall f s w,
    P s -> P (fst (send_HandleStopSendingFrame f s w));
  keep_send_SetWriteDeadline : forall t s w,
    P s -> P (snd (fst (send_SetWriteDeadline t s w)));
  keep_send_promoted : forall m s w,
    P s -> P (fst (send_promoted m s w))
}.

(** A property of the receive half that each of its methods keeps. *)
Record recv_preserves (Q : R -> Prop) : Prop := {
  keep_recv_onClose : forall offset r w,
    Q r -> Q (fst (recv_onClose offset r w));
  keep_recv_CloseForShutdown : forall err r w,
    Q r -> Q (fst (recv_CloseForShutdown err r w));
  keep_recv_HandleRstStreamFrame : forall f r w,
    Q r -> Q (snd (fst (recv_HandleRstStreamFrame f r w)));
  keep_recv_SetReadDeadline : forall t r w,
    Q r -> Q (snd (fst (recv_SetReadDeadline t r w)));
  keep_recv_promoted : forall m r w,
    Q r -> Q (fst (recv_promoted m r w))
}.

(** No method of a half takes its [Finished] back. *)
Definition send_Finished_monotone : Prop :=
  send_preserves (fun s => send_Finished s = true).
Definition recv_Finished_monotone : Prop :=
  recv_preserves (fun r => recv_Finished r = true).

(** Modelled from the spec: the methods of the halves are not among the
    sources.  The stream identifier is "shared by both halves;
    established once at construction; never mutated" (section 3): a half
    reports the identifier it was constructed with, and none of its
    methods changes the identifier. *)
Definition send_StreamID_fixed : Prop :=
  (forall id onData queueControlFrame fc v,
     send_StreamID (newSendStream id onData queueControlFrame fc v) = id) /\
  (forall id, send_preserves (fun s => send_StreamID s = id)).
Definition recv_StreamID_fixed : Prop :=
  (forall id onData queueControlFrame fc,
     recv_StreamID (newReceiveStream id onData queueControlFrame fc) = id) /\
  (forall id, recv_preserves (fun r => recv_StreamID r = id)).

(** *** Reading the record of calls and a lifetime *)

(** The errors passed to the send half's [CloseForShutdown], in order. *)
Fixpoint sendShutdownCalls (cs : list call) : list (error E) :=
  match cs with
  | [] => []
  | SendCloseForShutdown err :: cs' => err :: sendShutdownCalls cs'
  | _ :: cs' => sendShutdownCalls cs'
  end.

(** The errors passed to the receive half's [CloseForShutdown]. *)
Fixpoint recvShutdownCalls (cs : list call) : list (error E) :=
  match cs with
  | [] => []
  | RecvCloseForShutdown err :: cs' => err :: recvShutdownCalls cs'
  | _ :: cs' => recvShutdownCalls cs'
  end.

(** The errors of the [CloseForShutdown] calls of a lifetime. *)
Fixpoint shutdownOps (os : list op) : list (error E) :=
  match os with
  | [] => []
  | OpCloseForShutdown err :: os' => err :: shutdownOps os'
  | _ :: os' => shutdownOps os'
  end.

(** The frames of the [HandleStopSendingFrame] calls of a lifetime. *)
Fixpoint stopSendingOps (os : list op) : list StopSendingFrame :=
  match os with
  | [] => []
  | OpHandleStopSendingFrame frame :: os' => frame :: stopSendingOps os'
  | _ :: os' => stopSendingOps os'
  end.

(** The number of [Close] calls of a lifetime. *)
Fixpoint closeOps (os : list op) : nat :=
  match os with
  | [] => O
  | OpClose :: os' => Datatypes.S (closeOps os')
  | _ :: os' => closeOps os'
  end.

(** [HandleRstStreamFrame] is the one method whose body mentions
    [s.version]. *)
Definition reads_version (o : op) : bool :=
  match o with
  | OpHandleRstStreamFrame _ => true
  | _ => false
  end.

(** The same stream and session with another value in the field
    [version]. *)
Definition with_version (v : VersionNumber) (st : state) : state :=
  {| self := {| receiveStream := receiveStream (self st);
                sendStream := sendStream (self st);
                version := v |};
     world := world st;
     calls := calls st |}.

(** Where a stop-sending directive for stream [id] can come from during
    the lifetime [os]: the session passed it to [HandleStopSendingFrame],
    or it is made of [id] and the error code of a reset that the session
    passed to [HandleRstStreamFrame]. *)
Definition directive_origin (id : protocol.StreamID) (os : list op)
    (f : StopSendingFrame) : Prop :=
  In (OpHandleStopSendingFrame f) os \/
  exists frame : RstStreamFrame,
    In (OpHandleRstStreamFrame frame) os /\
    f = {| stop_StreamID := id; stop_ErrorCode := rst_ErrorCode frame |}.

(** Closing a half for shutdown leaves it finished. *)
Definition send_shutdown_finishes : Prop :=
  forall err s w, send_Finished (fst (send_CloseForShutdown err s w)) = true.
Definition recv_shutdown_finishes : Prop :=
  forall err r w, recv_Finished (fst (recv_CloseForShutdown err r w)) = true.

End Stream.

(** ** Half-streams after the spec *)

(** The files of [sendStream] and [receiveStream] are not among the
    sources.  This module gives the two halves the behaviour that the spec
    words for them, to run the methods of [stream.go] on concrete
    streams. *)
Module spec_halves.

Local Abbreviation StreamID := protocol.StreamID.

(** Modelled from the spec: an error is known by its descriptive message
    (section 4.7). *)
Definition E := string.

(** Modelled from the spec: the caller of the stream is a session that
    "collects outbound control frames via a supplied callback", is woken
    by [onData], and schedules the stream-data frames of the send half
    (section 2).  Its state is what it has been handed, oldest first. *)
Inductive output :=
| OnData
| ControlFrame (f : Frame)
| StreamData (f : StreamFrame).

Definition W := list output.

(** The callbacks the session supplies to [newStream]. *)
Definition onData : W -> W := fun w => w ++ [OnData].
Definition queueControlFrame : Frame -> W -> W :=
  fun f w => w ++ [ControlFrame f].

(** Modelled from the spec: the flow controller is an external
    collaborator (section 1); the halves only hold it. *)
Definition FC := unit.

(** Modelled from the spec: a deadline; 0 is the "zero/cleared deadline"
    of section 4.3. *)
Definition Instant := N.

(** Modelled from the spec: of the remaining methods of the halves, the
    caller-facing [Write] and [Read], the read-side cancellation, and the
    two the session uses to fetch and deliver stream data (sections 2 and
    6). *)
Inductive send_method :=
| MWrite (n : ByteCount)
| MPopStreamFrame.

Inductive recv_method :=
| MHandleStreamFrame (f : StreamFrame)
| MRead
| MCancelRead (code : ApplicationErrorCode).

(** Modelled from the spec: the send half "owns the outgoing byte
    sequence, buffers unsent data, tracks write offset, emits outgoing
    stream-data frames, supports graceful close (emit final frame) and
    abrupt close" (section 2). *)
Record sendHalf := {
  s_streamID : StreamID;
  s_version : VersionNumber;
  s_onData : W -> W;
  s_queueControlFrame : Frame -> W -> W;
  s_flowController : FC;
  s_writeOffset : ByteCount;
  s_unsent : ByteCount;
  s_closed : bool;
  s_finSent : bool;
  s_stopped : option ApplicationErrorCode;
  s_shutdown : option (error E);
  s_deadline : Instant
}.

Definition s_set_progress (s : sendHalf)
    (writeOffset unsent : ByteCount) (closed finSent : bool) : sendHalf :=
  {| s_streamID := s_streamID s; s_version := s_version s;
     s_onData := s_onData s; s_queueControlFrame := s_queueControlFrame s;
     s_flowController := s_flowController s;
     s_writeOffset := writeOffset; s_unsent := unsent;
     s_closed := closed; s_finSent := finSent;
     s_stopped := s_stopped s; s_shutdown := s_shutdown s;
     s_deadline := s_deadline s |}.

Definition s_set_end (s : sendHalf)
    (stopped : option ApplicationErrorCode) (shutdown : option (error E))
    (deadline : Instant) : sendHalf :=
  {| s_streamID := s_streamID s; s_version := s_version s;
     s_onData := s_onData s; s_queueControlFrame := s_queueControlFrame s;
     s_flowController := s_flowController s;
     s_writeOffset := s_writeOffset s; s_unsent := s_unsent s;
     s_closed := s_closed s; s_finSent := s_finSent s;
     s_stopped := stopped; s_shutdown := shutdown;
     s_deadline := deadline |}.

Definition is_some {A} (o : option A) : bool :=
  match o with Some _ => true | None => false end.

(** Modelled from the spec: construction has "no side effects beyond
    allocation" (section 4.1). *)
Definition s_new (id : StreamID) (od : W -> W) (qcf : Frame -> W -> W)
    (fc : FC) (v : VersionNumber) : sendHalf :=
  {| s_streamID := id; s_version := v; s_onData := od;
     s_queueControlFrame := qcf; s_flowController := fc;
     s_writeOffset := 0; s_unsent := 0; s_closed := false;
     s_finSent := false; s_stopped := None; s_shutdown := None;
     s_deadline := 0 |}.

(** Modelled from the spec: close "returns an error if the send half
    cannot be closed (e.g., it was already closed or already reset)";
    otherwise the half is closed and the session is prompted to schedule
    the final frame (section 4.2). *)
Definition s_Close (s : sendHalf) (w : W) : error E * sendHalf * W :=
  if s_closed s || is_some (s_stopped s) then
    (Some "send half already closed or reset"%string, s, w)
  else
    (None, s_set_progress s (s_writeOffset s) (s_unsent s) true (s_finSent s),
     s_onData s w).

(** Modelled from the spec: abrupt shutdown terminates "without any peer
    notification"; "later calls are no-ops" (section 4.4). *)
Definition s_CloseForShutdown (err : error E) (s : sendHalf) (w : W)
  : sendHalf * W :=
  match s_shutdown s with
  | Some _ => (s, w)
  | None => (s_set_end s (s_stopped s) (Some err) (s_deadline s), w)
  end.

(** Modelled from the spec: a stop-sending directive "instructs the
    local send half to abandon sending" (section 6); the half keeps the
    code it carried. *)
Definition s_HandleStopSendingFrame (f : StopSendingFrame) (s : sendHalf)
    (w : W) : sendHalf * W :=
  match s_stopped s with
  | Some _ => (s, w)
  | None => (s_set_end s (Some (stop_ErrorCode f)) (s_shutdown s)
                       (s_deadline s), w)
  end.

(** Modelled from the spec: a half is finished in "a terminal state
    (sent, reset, or closed-for-shutdown)" (section 4.6). *)
Definition s_Finished (s : sendHalf) : bool :=
  s_finSent s || is_some (s_stopped s) || is_some (s_shutdown s).

(** Modelled from the spec: the deadline setter never fails (section
    4.3). *)
Definition s_SetWriteDeadline (t : Instant) (s : sendHalf) (w : W)
  : error E * sendHalf * W :=
  (None, s_set_end s (s_stopped s) (s_shutdown s) t, w).

(** Modelled from the spec: writing buffers data and advances the write
    offset; popping a frame emits the buffered data, with the final
    marker "once buffered data drains" after a close (sections 2 and
    4.2); a finished half does neither. *)
Definition s_promoted (m : send_method) (s : sendHalf) (w : W)
  : sendHalf * W :=
  if s_Finished s then (s, w)
  else
    match m with
    | MWrite n =>
        if s_closed s then (s, w)
        else (s_set_progress s (s_writeOffset s + n) (s_unsent s + n)
                             (s_closed s) (s_finSent s),
              s_onData s w)
    | MPopStreamFrame =>
        if (0 <? s_unsent s) || s_closed s then
          (s_set_progress s (s_writeOffset s) 0 (s_closed s) (s_closed s),
           w ++ [StreamData
                   {| stream_StreamID := s_streamID s;
                      stream_Offset := s_writeOffset s - s_unsent s;
                      stream_DataLen := s_unsent s;
                      stream_FinBit := s_closed s |}])
        else (s, w)
    end.

#[global] Instance spec_sendStream
  : SendStream E W FC Instant send_method sendHalf := {|
  newSendStream := s_new;
  send_StreamID := s_streamID;
  send_Close := s_Close;
  send_getWriteOffset := s_writeOffset;
  send_CloseForShutdown := s_CloseForShutdown;
  send_HandleStopSendingFrame := s_HandleStopSendingFrame;
  send_Finished := s_Finished;
  send_SetWriteDeadline := s_SetWriteDeadline;
  send_promoted := s_promoted
|}.

(** Modelled from the spec: the receive half "owns incoming byte
    reassembly, accepts inbound data/reset frames, supports abrupt
    close, reports a final-offset if the peer reset" (section 2). *)
Record receiveHalf := {
  r_streamID : StreamID;
  r_onData : W -> W;
  r_queueControlFrame : Frame -> W -> W;
  r_flowController : FC;
  r_finalOffset : option ByteCount;
  r_readAll : bool;
  r_resetCode : option ApplicationErrorCode;
  r_canceledRead : option ApplicationErrorCode;
  r_shutdown : option (error E);
  r_deadline : Instant
}.

Definition r_set_data (r : receiveHalf) (finalOffset : option ByteCount)
    (readAll : bool) (resetCode : option ApplicationErrorCode)
  : receiveHalf :=
  {| r_streamID := r_streamID r; r_onData := r_onData r;
     r_queueControlFrame := r_queueControlFrame r;
     r_flowController := r_flowController r;
     r_finalOffset := finalOffset; r_readAll := readAll;
     r_resetCode := resetCode; r_canceledRead := r_canceledRead r;
     r_shutdown := r_shutdown r; r_deadline := r_deadline r |}.

Definition r_set_end (r : receiveHalf)
    (canceledRead : option ApplicationErrorCode)
    (shutdown : option (error E)) (deadline : Instant) : receiveHalf :=
  {| r_streamID := r_streamID r; r_onData := r_onData r;
     r_queueControlFrame := r_queueControlFrame r;
     r_flowController := r_flowController r;
     r_finalOffset := r_finalOffset r; r_readAll := r_readAll r;
     r_resetCode := r_resetCode r; r_canceledRead := canceledRead;
     r_shutdown := shutdown; r_deadline := deadline |}.

(** Modelled from the spec: construction has "no side effects beyond
    allocation" (section 4.1); the receive half is given no version. *)
Definition r_new (id : StreamID) (od : W -> W) (qcf : Frame -> W -> W)
    (fc : FC) : receiveHalf :=
  {| r_streamID := id; r_onData := od; r_queueControlFrame := qcf;
     r_flowController := fc; r_finalOffset := None; r_readAll := false;
     r_resetCode := None; r_canceledRead := None; r_shutdown := None;
     r_deadline := 0 |}.

(** Modelled from the spec: on a graceful close the receive half learns
    the final write offset, because "canceling the read side (before
    this call) requires emitting a reset referencing the true final
    offset" (section 4.2). *)
Definition r_onClose (offset : ByteCount) (r : receiveHalf) (w : W)
  : receiveHalf * W :=
  match r_canceledRead r with
  | Some code =>
      (r, r_queueControlFrame r
            (FRstStream {| rst_StreamID := r_streamID r;
                           rst_ErrorCode := code;
                           rst_ByteOffset := offset |}) w)
  | None => (r, w)
  end.

(** Modelled from the spec: abrupt shutdown, as for the send half
    (section 4.4). *)
Definition r_CloseForShutdown (err : error E) (r : receiveHalf) (w : W)
  : receiveHalf * W :=
  match r_shutdown r with
  | Some _ => (r, w)
  | None => (r_set_end r (r_canceledRead r) (Some err) (r_deadline r), w)
  end.

(** Modelled from the spec: the receive half rejects a reset that
    "arrives after the stream already finished cleanly, or carries an
    inconsistent final offset" (section 4.5); an accepted reset records
    its code and final offset and wakes the reader. *)
Definition r_HandleRstStreamFrame (f : RstStreamFrame) (r : receiveHalf)
    (w : W) : error E * receiveHalf * W :=
  if r_readAll r then
    (Some "reset after the stream finished"%string, r, w)
  else
    match r_finalOffset r with
    | Some o =>
        if o =? rst_ByteOffset f then
          (None, r_set_data r (Some o) false (Some (rst_ErrorCode f)),
           r_onData r w)
        else (Some "inconsistent final offset"%string, r, w)
    | None =>
        (None,
         r_set_data r (Some (rst_ByteOffset f)) false
                    (Some (rst_ErrorCode f)),
         r_onData r w)
    end.

(** Modelled from the spec: finished is "graceful completion or
    reset/canceled completion", or closed for shutdown (section 4.6). *)
Definition r_Finished (r : receiveHalf) : bool :=
  r_readAll r || is_some (r_resetCode r) || is_some (r_shutdown r).

(** Modelled from the spec: the deadline setter never fails (section
    4.3). *)
Definition r_SetReadDeadline (t : Instant) (r : receiveHalf) (w : W)
  : error E * receiveHalf * W :=
  (None, r_set_end r (r_canceledRead r) (r_shutdown r) t, w).

(** Modelled from the spec: a stream-data frame with the final marker
    fixes the final offset; a read after that drains the stream, which
    then has finished cleanly; canceling the read side is remembered
    for [onClose]. *)
Definition r_promoted (m : recv_method) (r : receiveHalf) (w : W)
  : receiveHalf * W :=
  match m with
  | MHandleStreamFrame f =>
      match r_finalOffset r with
      | Some _ => (r, w)
      | None =>
          if stream_FinBit f then
            (r_set_data r (Some (stream_Offset f + stream_DataLen f))
                        (r_readAll r) (r_resetCode r),
             r_onData r w)
          else (r, r_onData r w)
      end
  | MRead =>
      if is_some (r_finalOffset r) && negb (is_some (r_resetCode r))
         && negb (is_some (r_shutdown r)) then
        (r_set_data r (r_finalOffset r) true (r_resetCode r), w)
      else (r, w)
  | MCancelRead code =>
      match r_canceledRead r with
      | Some _ => (r, w)
      | None => (r_set_end r (Some code) (r_shutdown r) (r_deadline r), w)
      end
  end.

#[global] Instance spec_receiveStream
  : ReceiveStream E W FC Instant recv_method receiveHalf := {|
  newReceiveStream := r_new;
  recv_StreamID := r_streamID;
  recv_onClose := r_onClose;
  recv_CloseForShutdown := r_CloseForShutdown;
  recv_HandleRstStreamFrame := r_HandleRstStreamFrame;
  recv_Finished := r_Finished;
  recv_SetReadDeadline := r_SetReadDeadline;
  recv_promoted := r_promoted
|}.

(** Modelled from the spec: [UsesIETFFrameFormat] is not among the
    sources, and the spec (section 3) only says that the version tag
    tells whether the wire format has a stop-sending frame.  In this
    sample one tag, 39, is the legacy format and every other tag, the
    zero value included, is the IETF format. *)
Definition Version39 : VersionNumber := 39.
Definition VersionTLS : VersionNumber := 101.
Definition UsesIETFFrameFormat (vn : VersionNumber) : bool :=
  negb (vn =? Version39).

(** The stream of the scenarios of section 8 of the spec: identifier 4,
    constructed with version [v]. *)
Definition stream4 (v : VersionNumber) : stream :=
  newStream 4 onData queueControlFrame tt v.

(** That stream before any method call, with nothing handed to the
    session yet. *)
Definition fresh (v : VersionNumber)
  : @state E W Instant send_method recv_method sendHalf receiveHalf :=
  {| self := stream4 v; world := []; calls := [] |}.

(** That stream after the method calls [os]. *)
Definition after (v : VersionNumber) (os : list op)
  : @state E W Instant send_method recv_method sendHalf receiveHalf :=
  lifetime UsesIETFFrameFormat os (fresh v).

(** A reset of stream 4 from the peer. *)
Definition reset (code : ApplicationErrorCode) (offset : ByteCount)
  : RstStreamFrame :=
  {| rst_StreamID := 4; rst_ErrorCode := code; rst_ByteOffset := offset |}.

(** The peer's last stream-data frame: 10 bytes, final marker set. *)
Definition final10 : StreamFrame :=
  {| stream_StreamID := 4; stream_Offset := 0; stream_DataLen := 10;
     stream_FinBit := true |}.

Definition errShutdown : error E := Some "connection closed"%string.

(** Stream 4 with the legacy version in the send half and in the field
    [version] too: a value of the struct that [newStream] does not
    build. *)
Definition legacy4 : @stream sendHalf receiveHalf :=
  {| receiveStream := r_new 4 onData queueControlFrame tt;
     sendStream := s_new 4 onData queueControlFrame tt Version39;
     version := Version39 |}.

End spec_halves.

(** * Properties *)

(** ** The error types *)

(** C8: every deadline error reports both its retryable facet
    ([Temporary]) and its timeout facet ([Timeout]) as true. *)
Theorem deadlineError_Temporary_Timeout (e : deadlineError) :
  Temporary e = true /\ Timeout e = true.
Proof. destruct e; split; reflexivity. Qed.

(** C9: a cancellation error built around any descriptive error with
    application error code [c] reports [Canceled] as true and returns
    exactly [c] from [ErrorCode]. *)
Theorem streamCanceledError_Canceled_ErrorCode
    (Err : Type) (err : Err) (c : ApplicationErrorCode) :
  let e := {| embedded_error := err; errorCode := c |} in
  Canceled e = true /\ ErrorCode e = c /\ embedded_error e = err.
Proof. cbn; repeat split. Qed.

(** ** The methods of [stream.go], for all half-streams *)

(** Unfolds a method down to the calls into the halves. *)
Ltac unfold_methods :=
  unfold run, exec, ignore, StreamID, Close, SetDeadline,
    CloseForShutdown, HandleRstStreamFrame, Finished, HandleStopSendingFrame,
    SetReadDeadline, SetWriteDeadline, promoted_send, promoted_recv,
    sendStream_StreamID, sendStream_Close, sendStream_getWriteOffset,
    sendStream_CloseForShutdown, sendStream_Finished, receiveStream_onClose,
    receiveStream_CloseForShutdown, receiveStream_HandleRstStreamFrame,
    receiveStream_Finished, get_version, bind, ret, call_send, call_recv,
    reads, updates in *;
  cbn in *.

Section StreamTheory.

Context {E W FC Instant SM RM S R : Type}.
Context {send : SendStream E W FC Instant SM S}.
Context {recv : ReceiveStream E W FC Instant RM R}.
Variable UsesIETFFrameFormat : VersionNumber -> bool.

Local Abbreviation stream := (@stream S R).
Local Abbreviation state := (@state E W Instant SM RM S R).

(** C2: [Close] first closes the send half.  If that returns an error,
    [Close] returns this error, has made no other call ([onClose] is not
    invoked) and the receive half is as before.  If it succeeds,
    [Close] then reads the write offset of the closed send half, passes
    exactly this offset to the receive half's [onClose], and returns
    [nil]. *)
Theorem Close_send_then_onClose (s : stream) (w : W)
    (res : error E) (ss : S) (w1 : W) :
  send_Close (sendStream s) w = (res, ss, w1) ->
  let st := snd (run Close s w) in
  fst (run Close s w) = res /\
  sendStream (self st) = ss /\
  version (self st) = version s /\
  match res with
  | Some _ =>
      calls st = [SendClose] /\
      onCloseCalls (calls st) = [] /\
      receiveStream (self st) = receiveStream s /\
      world st = w1
  | None =>
      calls st = [SendClose; SendGetWriteOffset;
                  RecvOnClose (send_getWriteOffset ss)] /\
      onCloseCalls (calls st) = [send_getWriteOffset ss] /\
      (receiveStream (self st), world st)
      = recv_onClose (send_getWriteOffset ss) (receiveStream s) w1
  end.
Proof.
  intros Hc. unfold_methods. rewrite Hc.
  destruct res as [e|]; cbn.
  - repeat split.
  - destruct (recv_onClose (send_getWriteOffset ss) (receiveStream s) w1)
      as [rs w2]; cbn.
    repeat split.
Qed.

(** C3: when the receive half rejects a reset frame with error [e],
    [HandleRstStreamFrame] returns exactly [e]; the handler of the
    receive half is the only call made, so no stop-sending directive is
    synthesized and the send half is untouched, whatever the version
    field and the version predicate. *)
Theorem HandleRstStreamFrame_rejected (s : stream) (w : W)
    (frame : RstStreamFrame) (e : E) (rs : R) (w1 : W) :
  recv_HandleRstStreamFrame frame (receiveStream s) w = (Some e, rs, w1) ->
  let st := snd (run (HandleRstStreamFrame UsesIETFFrameFormat frame) s w) in
  fst (run (HandleRstStreamFrame UsesIETFFrameFormat frame) s w) = Some e /\
  calls st = [RecvHandleRstStreamFrame frame] /\
  stopSendingCalls (calls st) = [] /\
  sendStream (self st) = sendStream s /\
  receiveStream (self st) = rs /\
  version (self st) = version s /\
  world st = w1.
Proof.
  intros Hr. unfold_methods. rewrite Hr; cbn.
  repeat split.
Qed.

(** C4: [CloseForShutdown err] calls [CloseForShutdown] of the send
    half and then of the receive half, each with the same [err], and
    nothing else: the halves and the session state are exactly what
    these two calls leave.  If neither half hands anything to the
    session on an abrupt close, the session state is unchanged: nothing
    is emitted towards the peer. *)
Theorem CloseForShutdown_both_halves (s : stream) (w : W) (err : error E) :
  let st := snd (run (CloseForShutdown err) s w) in
  let sw := send_CloseForShutdown err (sendStream s) w in
  let rw := recv_CloseForShutdown err (receiveStream s) (snd sw) in
  calls st = [SendCloseForShutdown err; RecvCloseForShutdown err] /\
  sendStream (self st) = fst sw /\
  receiveStream (self st) = fst rw /\
  version (self st) = version s /\
  world st = snd rw /\
  ((forall ss w0, snd (send_CloseForShutdown err ss w0) = w0) ->
   (forall rs w0, snd (recv_CloseForShutdown err rs w0) = w0) ->
   world st = w).
Proof.
  unfold_methods.
  destruct (send_CloseForShutdown err (sendStream s) w) as [ss w1] eqn:Hs.
  cbn.
  destruct (recv_CloseForShutdown err (receiveStream s) w1) as [rs w2] eqn:Hr.
  cbn.
  repeat split.
  intros Hsend Hrecv.
  specialize (Hsend (sendStream s) w). rewrite Hs in Hsend. cbn in Hsend.
  specialize (Hrecv (receiveStream s) w1). rewrite Hr in Hrecv.
  cbn in Hrecv. congruence.
Qed.

(** *** Invariants along a lifetime *)

(** Case analysis on the innermost result of a call into a half. *)
Ltac split_calls :=
  repeat (match goal with
          | |- context [match ?x with _ => _ end] =>
              lazymatch x with
              | context [match _ with _ => _ end] => fail
              | _ => destruct x
              end
          end; cbn).

(** A method of [stream] keeps what every method of the halves keeps. *)
Lemma exec_preserves (P : S -> Prop) (Q : R -> Prop) :
  send_preserves P -> recv_preserves Q ->
  forall (o : op) (st : state),
    P (sendStream (self st)) -> Q (receiveStream (self st)) ->
    P (sendStream (self (snd (exec UsesIETFFrameFormat o st)))) /\
    Q (receiveStream (self (snd (exec UsesIETFFrameFormat o st)))).
Proof.
  intros [pc ps ph pd pp] [qo qs qh qd qp] o st Hp Hq.
  pose proof (pc (sendStream (self st)) (world st) Hp) as Hpc.
  destruct o; unfold_methods.
  - split; assumption.
  - destruct (send_Close (sendStream (self st)) (world st))
      as [[res ss] w1]; cbn in *.
    destruct res; cbn.
    + split; assumption.
    + pose proof (qo (send_getWriteOffset ss) (receiveStream (self st)) w1 Hq).
      destruct (recv_onClose (send_getWriteOffset ss)
                             (receiveStream (self st)) w1); cbn in *.
      split; assumption.
  - pose proof (qd t (receiveStream (self st)) (world st) Hq) as Hqd.
    destruct (recv_SetReadDeadline t (receiveStream (self st)) (world st))
      as [[res rs] w1]; cbn in *.
    pose proof (pd t (sendStream (self st)) w1 Hp) as Hpd.
    destruct (send_SetWriteDeadline t (sendStream (self st)) w1)
      as [[res' ss] w2]; cbn in *.
    split; assumption.
  - pose proof (ps err (sendStream (self st)) (world st) Hp) as Hps.
    destruct (send_CloseForShutdown err (sendStream (self st)) (world st))
      as [ss w1]; cbn in *.
    pose proof (qs err (receiveStream (self st)) w1 Hq) as Hqs.
    destruct (recv_CloseForShutdown err (receiveStream (self st)) w1)
      as [rs w2]; cbn in *.
    split; assumption.
  - pose proof (qh frame (receiveStream (self st)) (world st) Hq) as Hqh.
    destruct (recv_HandleRstStreamFrame frame (receiveStream (self st))
                                        (world st))
      as [[res rs] w1]; cbn in *.
    destruct res; cbn.
    + split; assumption.
    + destruct (UsesIETFFrameFormat (version (self st))); cbn.
      * split; assumption.
      * match goal with
        | |- context [send_HandleStopSendingFrame ?f ?x ?y] =>
            pose proof (ph f x y Hp) as Hph;
            destruct (send_HandleStopSendingFrame f x y); cbn in *
        end.
        split; assumption.
  - destruct (send_Finished (sendStream (self st))); cbn;
      split; assumption.
  - pose proof (ph frame (sendStream (self st)) (world st) Hp) as Hph.
    destruct (send_HandleStopSendingFrame frame (sendStream (self st))
                                          (world st)); cbn in *.
    split; assumption.
  - pose proof (qd t (receiveStream (self st)) (world st) Hq) as Hqd.
    destruct (recv_SetReadDeadline t (receiveStream (self st)) (world st))
      as [[res rs] w1]; cbn in *.
    split; assumption.
  - pose proof (pd t (sendStream (self st)) (world st) Hp) as Hpd.
    destruct (send_SetWriteDeadline t (sendStream (self st)) (world st))
      as [[res' ss] w2]; cbn in *.
    split; assumption.
  - pose proof (pp m (sendStream (self st)) (world st) Hp) as Hpp.
    destruct (send_promoted m (sendStream (self st)) (world st)); cbn in *.
    split; assumption.
  - pose proof (qp m (receiveStream (self st)) (world st) Hq) as Hqp.
    destruct (recv_promoted m (receiveStream (self st)) (world st));
      cbn in *.
    split; assumption.
Qed.

Lemma lifetime_preserves (P : S -> Prop) (Q : R -> Prop) :
  send_preserves P -> recv_preserves Q ->
  forall (os : list op) (st : state),
    P (sendStream (self st)) -> Q (receiveStream (self st)) ->
    P (sendStream (self (lifetime UsesIETFFrameFormat os st))) /\
    Q (receiveStream (self (lifetime UsesIETFFrameFormat os st))).
Proof.
  intros HP HQ os.
  induction os as [|o os IH]; intros st Hp Hq; cbn.
  - split; assumption.
  - destruct (exec_preserves HP HQ o st Hp Hq) as [Hp' Hq'].
    apply IH; assumption.
Qed.

(** No method writes the field [version]. *)
Lemma exec_version (o : op) (st : state) :
  version (self (snd (exec UsesIETFFrameFormat o st))) = version (self st).
Proof.
  destruct o; unfold_methods; split_calls; reflexivity.
Qed.

Lemma lifetime_version (os : list op) (st : state) :
  version (self (lifetime UsesIETFFrameFormat os st)) = version (self st).
Proof.
  revert st; induction os as [|o os IH]; intros st; cbn.
  - reflexivity.
  - rewrite IH. apply exec_version.
Qed.

(** [Finished] as a function of the two halves. *)
Lemma Finished_result (st : state) :
  fst (Finished st)
  = send_Finished (sendStream (self st))
    && recv_Finished (receiveStream (self st)).
Proof.
  unfold_methods.
  destruct (send_Finished (sendStream (self st))); reflexivity.
Qed.

(** What [HandleRstStreamFrame] does with a frame that the receive half
    accepts, as a function of the field [version]. *)
Lemma HandleRstStreamFrame_accepted (s : stream) (w : W)
    (frame : RstStreamFrame) (rs : R) (w1 : W) :
  recv_HandleRstStreamFrame frame (receiveStream s) w = (None, rs, w1) ->
  let st := snd (run (HandleRstStreamFrame UsesIETFFrameFormat frame) s w) in
  let directive := {| stop_StreamID := send_StreamID (sendStream s);
                      stop_ErrorCode := rst_ErrorCode frame |} in
  fst (run (HandleRstStreamFrame UsesIETFFrameFormat frame) s w) = None /\
  receiveStream (self st) = rs /\
  version (self st) = version s /\
  if UsesIETFFrameFormat (version s) then
    calls st = [RecvHandleRstStreamFrame frame] /\
    sendStream (self st) = sendStream s /\
    world st = w1
  else
    calls st = [RecvHandleRstStreamFrame frame; SendStreamID;
                SendHandleStopSendingFrame directive] /\
    (sendStream (self st), world st)
    = send_HandleStopSendingFrame directive (sendStream s) w1.
Proof.
  intros Hr. unfold_methods. rewrite Hr; cbn.
  destruct (UsesIETFFrameFormat (version s)); cbn.
  - repeat split.
  - destruct (send_HandleStopSendingFrame _ (sendStream s) w1); cbn.
    repeat split.
Qed.

(** *** Completion, identity and the version field *)


(** C7: if the send half reports the identifier it was constructed with
    and none of its methods changes it, then after any method calls on a
    stream built by [newStream] with identifier [id], [StreamID]
    returns [id]; it calls the send half's [StreamID] and nothing else,
    and returns that result.  Under the same contract for the receive
    half, its identifier is [id] as well. *)
Theorem StreamID_is_constructor_id
    (id : protocol.StreamID) (onData : W -> W)
    (queueControlFrame : Frame -> W -> W) (fc : FC) (v : VersionNumber)
    (w : W) (os : list op) :
  send_StreamID_fixed ->
  let st := lifetime UsesIETFFrameFormat os
              {| self := newStream id onData queueControlFrame fc v;
                 world := w; calls := [] |} in
  fst (StreamID st) = id /\
  fst (StreamID st) = send_StreamID (sendStream (self st)) /\
  snd (StreamID st)
  = {| self := self st; world := world st;
       calls := calls st ++ [SendStreamID] |} /\
  (recv_StreamID_fixed -> recv_StreamID (receiveStream (self st)) = id).
Proof.
  intros [Hnew Hkeep] st.
  assert (Hid : send_StreamID (sendStream (self st)) = id).
  { refine (proj1 (@lifetime_preserves
                     (fun s => send_StreamID s = id) (fun _ => True)
                     (Hkeep id) _ os _ _ I)).
    - constructor; intros; exact I.
    - cbn. apply Hnew. }
  assert (Hself : snd (StreamID st)
                  = {| self := self st; world := world st;
                       calls := calls st ++ [SendStreamID] |}).
  { unfold_methods. destruct (self st); reflexivity. }
  repeat split; try assumption.
  intros [Hnew' Hkeep'].
  refine (proj2 (@lifetime_preserves
                   (fun _ => True) (fun r => recv_StreamID r = id)
                   _ (Hkeep' id) os _ I _)).
  - constructor; intros; exact I.
  - cbn. apply Hnew'.
Qed.

(** C10: [newStream] passes its version argument to the send half only
    and leaves the stream's own field [version] at the zero value, and
    no method changes the field.  So for a frame that the receive half
    accepts, whether [HandleRstStreamFrame] synthesizes a stop-sending
    directive is decided by the version predicate at the zero value,
    whatever version was given to [newStream]. *)
Theorem newStream_leaves_version_zero
    (id : protocol.StreamID) (onData : W -> W)
    (queueControlFrame : Frame -> W -> W) (fc : FC) (v : VersionNumber) :
  let s := newStream id onData queueControlFrame fc v in
  version s = VersionNumber_zero /\
  sendStream s = newSendStream id onData queueControlFrame fc v /\
  receiveStream s = newReceiveStream id onData queueControlFrame fc /\
  forall (os : list op) (w : W) (frame : RstStreamFrame) (rs : R) (w1 : W),
    let st0 := lifetime UsesIETFFrameFormat os
                 {| self := s; world := w; calls := [] |} in
    version (self st0) = VersionNumber_zero /\
    (recv_HandleRstStreamFrame frame (receiveStream (self st0)) (world st0)
     = (None, rs, w1) ->
     stopSendingCalls
       (calls (snd (run (HandleRstStreamFrame UsesIETFFrameFormat frame)
                        (self st0) (world st0))))
     = if UsesIETFFrameFormat VersionNumber_zero then []
       else [{| stop_StreamID := send_StreamID (sendStream (self st0));
                stop_ErrorCode := rst_ErrorCode frame |}]).
Proof.
  cbn. repeat split.
  - apply lifetime_version.
  - intros Hr.
    pose proof (HandleRstStreamFrame_accepted _ _ _ Hr) as H.
    cbn in H. destruct H as (_ & _ & _ & H).
    rewrite lifetime_version in H. cbn in H.
    destruct (UsesIETFFrameFormat VersionNumber_zero).
    + destruct H as (-> & _). reflexivity.
    + destruct H as (-> & _). reflexivity.
Qed.

(** C1 fails on streams built by [newStream]: for a frame that the
    receive half accepts, the error codes of the stop-sending directives
    that [HandleRstStreamFrame] synthesizes are the same whichever
    version the stream was constructed with.  So when [legacy] is a
    legacy version and [ietf] an IETF version, it is not the case that
    the stream constructed with [legacy] synthesizes a directive with
    the code of the reset while the one constructed with [ietf]
    synthesizes none. *)
Theorem HandleRstStreamFrame_ignores_constructor_version
    (id : protocol.StreamID) (onData : W -> W)
    (queueControlFrame : Frame -> W -> W) (fc : FC)
    (legacy ietf : VersionNumber) (w : W) (frame : RstStreamFrame)
    (rs : R) (w1 : W) :
  UsesIETFFrameFormat legacy = false ->
  UsesIETFFrameFormat ietf = true ->
  recv_HandleRstStreamFrame frame
    (newReceiveStream id onData queueControlFrame fc) w = (None, rs, w1) ->
  let synthesized (v : VersionNumber) :=
    stopSendingCodes
      (calls (snd (run (HandleRstStreamFrame UsesIETFFrameFormat frame)
                       (newStream id onData queueControlFrame fc v) w))) in
  synthesized legacy = synthesized ietf /\
  ~ (synthesized legacy = [rst_ErrorCode frame] /\ synthesized ietf = []).
Proof.
  intros _ _ Hr synthesized.
  assert (Hall : forall v,
             synthesized v
             = if UsesIETFFrameFormat VersionNumber_zero then []
               else [rst_ErrorCode frame]).
  { intros v. subst synthesized. cbv beta.
    pose proof (@HandleRstStreamFrame_accepted
                  (newStream id onData queueControlFrame fc v) w frame
                  rs w1 Hr) as H.
    cbn in H. destruct H as (_ & _ & _ & H).
    destruct (UsesIETFFrameFormat VersionNumber_zero).
    - destruct H as (-> & _). reflexivity.
    - destruct H as (-> & _). reflexivity. }
  split.
  - rewrite (Hall legacy), (Hall ietf). reflexivity.
  - rewrite (Hall legacy), (Hall ietf).
    destruct (UsesIETFFrameFormat VersionNumber_zero);
      intros [H1 H2]; discriminate.
Qed.

End StreamTheory.

(** ** The half-streams after the spec *)

Section SpecHalvesTheory.

Import spec_halves.

Local Abbreviation sstream := (@stream sendHalf receiveHalf).
Local Abbreviation sstate :=
  (@state E W Instant send_method recv_method sendHalf receiveHalf).

Ltac cases_on_fields :=
  repeat match goal with
    | b : bool |- _ => destruct b
    | o : option _ |- _ => destruct o
    end.

Ltac half_law :=
  intros;
  repeat match goal with
    | s : sendHalf |- _ => destruct s
    | r : receiveHalf |- _ => destruct r
    | m : send_method |- _ => destruct m
    | m : recv_method |- _ => destruct m
    end;
  cbn in *;
  unfold s_Close, s_CloseForShutdown, s_HandleStopSendingFrame, s_Finished,
    s_SetWriteDeadline, s_promoted, r_onClose, r_CloseForShutdown,
    r_HandleRstStreamFrame, r_Finished, r_SetReadDeadline, r_promoted in *;
  cbn in *;
  cases_on_fields; cbn in *;
  repeat match goal with
    | |- context [if ?c then _ else _] => destruct c; cbn in *
    end;
  try reflexivity; try assumption; try discriminate.

Lemma spec_send_Finished_monotone :
  send_Finished_monotone (send := spec_sendStream).
Proof. constructor; half_law. Qed.

Lemma spec_recv_Finished_monotone :
  recv_Finished_monotone (recv := spec_receiveStream).
Proof. constructor; half_law. Qed.

Lemma spec_send_StreamID_fixed :
  send_StreamID_fixed (send := spec_sendStream).
Proof. split; [reflexivity|]. intros id; constructor; half_law. Qed.

Lemma spec_recv_StreamID_fixed :
  recv_StreamID_fixed (recv := spec_receiveStream).
Proof. split; [reflexivity|]. intros id; constructor; half_law. Qed.

(** Neither half hands anything to the session on an abrupt close. *)
Lemma spec_send_CloseForShutdown_silent (err : error E)
    (s : sendHalf) (w : W) :
  snd (s_CloseForShutdown err s w) = w.
Proof. unfold s_CloseForShutdown. destruct (s_shutdown s); reflexivity. Qed.

Lemma spec_recv_CloseForShutdown_silent (err : error E)
    (r : receiveHalf) (w : W) :
  snd (r_CloseForShutdown err r w) = w.
Proof. unfold r_CloseForShutdown. destruct (r_shutdown r); reflexivity. Qed.

(** *** The general theorems at concrete streams *)

Lemma Close_send_then_onClose_witness :
  let written := self (after Version39 [OpSend (MWrite 10)]) in
  let closed := self (after Version39 [OpSend (MWrite 10); OpClose]) in
  (fst (run Close written []) = None /\
   onCloseCalls (calls (snd (run Close written []))) = [10]) /\
  (fst (run Close closed [])
   = Some "send half already closed or reset"%string /\
   onCloseCalls (calls (snd (run Close closed []))) = [] /\
   receiveStream (self (snd (run Close closed []))) = receiveStream closed).
Proof.
  split.
  - eassert (Hc : send_Close
                    (sendStream (self (after Version39 [OpSend (MWrite 10)])))
                    [] = _)
      by (cbv; reflexivity).
    destruct (Close_send_then_onClose _ _ Hc) as (H1 & _ & _ & _ & H2 & _).
    split; [exact H1 | exact H2].
  - eassert (Hc : send_Close
                    (sendStream
                       (self (after Version39 [OpSend (MWrite 10); OpClose])))
                    [] = _)
      by (cbv; reflexivity).
    destruct (Close_send_then_onClose _ _ Hc)
      as (H1 & _ & _ & _ & H2 & H3 & _).
    split; [exact H1 | split; [exact H2 | exact H3]].
Defined.

Lemma HandleRstStreamFrame_rejected_witness :
  let s := self (after Version39 [OpRecv (MHandleStreamFrame final10)]) in
  let r := run (HandleRstStreamFrame UsesIETFFrameFormat (reset 3 5)) s [] in
  fst r = Some "inconsistent final offset"%string /\
  calls (snd r) = [RecvHandleRstStreamFrame (reset 3 5)] /\
  sendStream (self (snd r)) = sendStream s.
Proof.
  eassert (Hr : recv_HandleRstStreamFrame (reset 3 5)
                  (receiveStream
                     (self (after Version39
                              [OpRecv (MHandleStreamFrame final10)])))
                  [] = _)
    by (cbv; reflexivity).
  destruct (HandleRstStreamFrame_rejected UsesIETFFrameFormat _ _ _ Hr)
    as (H1 & H2 & _ & H3 & _).
  split; [exact H1 | split; [exact H2 | exact H3]].
Defined.

Lemma CloseForShutdown_both_halves_witness :
  let st := snd (run (CloseForShutdown errShutdown)
                     (self (after Version39 [OpSend (MWrite 10)]))
                     [OnData]) in
  calls st = [SendCloseForShutdown errShutdown;
              RecvCloseForShutdown errShutdown] /\
  s_shutdown (sendStream (self st)) = Some errShutdown /\
  r_shutdown (receiveStream (self st)) = Some errShutdown /\
  world st = [OnData].
Proof.
  destruct (CloseForShutdown_both_halves
              (self (after Version39 [OpSend (MWrite 10)])) [OnData]
              errShutdown)
    as (H1 & H2 & H3 & _ & _ & H4).
  split; [exact H1|].
  split; [rewrite H2; reflexivity|].
  split; [rewrite H3; reflexivity|].
  apply H4.
  - intros ss w0. apply spec_send_CloseForShutdown_silent.
  - intros rs w0. apply spec_recv_CloseForShutdown_silent.
Defined.


Lemma StreamID_is_constructor_id_witness :
  let st := after Version39 [OpSend (MWrite 10); OpClose;
                             OpHandleRstStreamFrame (reset 3 0)] in
  fst (StreamID st) = 4 /\
  r_streamID (receiveStream (self st)) = 4.
Proof.
  destruct (StreamID_is_constructor_id UsesIETFFrameFormat
              4 onData queueControlFrame tt Version39 []
              [OpSend (MWrite 10); OpClose;
               OpHandleRstStreamFrame (reset 3 0)]
              spec_send_StreamID_fixed)
    as (H1 & _ & _ & H2).
  split; [exact H1 | exact (H2 spec_recv_StreamID_fixed)].
Defined.

Lemma newStream_leaves_version_zero_witness :
  version (stream4 Version39) = 0 /\
  s_version (sendStream (stream4 Version39)) = Version39 /\
  let st0 := after Version39 [OpSend (MWrite 10); OpClose] in
  stopSendingCalls
    (calls (snd (run (HandleRstStreamFrame UsesIETFFrameFormat (reset 3 0))
                     (self st0) (world st0))))
  = [].
Proof.
  destruct (newStream_leaves_version_zero UsesIETFFrameFormat
              4 onData queueControlFrame tt Version39)
    as (H1 & H2 & _ & H3).
  split; [exact H1|].
  split; [exact (f_equal s_version H2)|].
  eassert (Hr : recv_HandleRstStreamFrame (reset 3 0)
                  (receiveStream
                     (self (after Version39 [OpSend (MWrite 10); OpClose])))
                  (world (after Version39 [OpSend (MWrite 10); OpClose]))
                = _)
    by (cbv; reflexivity).
  exact (proj2 (H3 [OpSend (MWrite 10); OpClose] [] (reset 3 0) _ _) Hr).
Defined.

Lemma HandleRstStreamFrame_ignores_constructor_version_witness :
  let synthesized (v : VersionNumber) :=
    stopSendingCodes
      (calls (snd (run (HandleRstStreamFrame UsesIETFFrameFormat (reset 3 0))
                       (stream4 v) []))) in
  UsesIETFFrameFormat Version39 = false /\
  UsesIETFFrameFormat VersionTLS = true /\
  synthesized Version39 = synthesized VersionTLS /\
  ~ (synthesized Version39 = [3] /\ synthesized VersionTLS = []).
Proof.
  split; [reflexivity|]. split; [reflexivity|].
  eassert (Hr : recv_HandleRstStreamFrame (reset 3 0)
                  (newReceiveStream 4 onData queueControlFrame tt) [] = _)
    by (cbv; reflexivity).
  exact (HandleRstStreamFrame_ignores_constructor_version
           UsesIETFFrameFormat 4 onData queueControlFrame tt
           Version39 VersionTLS [] (reset 3 0)
           (eq_refl : UsesIETFFrameFormat Version39 = false)
           (eq_refl : UsesIETFFrameFormat VersionTLS = true) Hr).
Defined.

(** The first scenario of section 8 of the spec, run on the code: stream
    4 is constructed with the legacy version, the caller writes 10 bytes
    and closes, the final frame goes out, and the peer resets with code
    3.  The receive half accepts the reset, and the send half gets no
    stop-sending directive. *)
Example legacy_scenario_no_stop_sending :
  let st0 := after Version39 [OpSend (MWrite 10); OpClose;
                              OpSend MPopStreamFrame] in
  let r := run (HandleRstStreamFrame UsesIETFFrameFormat (reset 3 10))
               (self st0) (world st0) in
  world st0 = [OnData; OnData;
               StreamData {| stream_StreamID := 4; stream_Offset := 0;
                             stream_DataLen := 10; stream_FinBit := true |}]
  /\ fst r = None
  /\ calls (snd r) = [RecvHandleRstStreamFrame (reset 3 10)]
  /\ r_resetCode (receiveStream (self (snd r))) = Some 3
  /\ s_stopped (sendStream (self (snd r))) = None.
Proof. cbv. repeat split. Qed.

(** *** Closing twice *)




End SpecHalvesTheory.

(** ** Further properties of the methods of [stream.go] *)

Section StreamLifetimes.

Context {E W FC Instant SM RM S R : Type}.
Context {send : SendStream E W FC Instant SM S}.
Context {recv : ReceiveStream E W FC Instant RM R}.
Variable UsesIETFFrameFormat : VersionNumber -> bool.

Local Abbreviation stream := (@stream S R).
Local Abbreviation state := (@state E W Instant SM RM S R).
Local Abbreviation call := (@call E Instant SM RM).
Local Abbreviation op := (@op E Instant SM RM).

(** Case analysis on the innermost result of a call into a half. *)
Ltac split_result :=
  match goal with
  | |- context [match ?x with _ => _ end] =>
      lazymatch x with
      | context [match _ with _ => _ end] => fail
      | _ => destruct x
      end
  end; cbn.

Ltac split_results := repeat split_result.

(** *** The readings of the record distribute over its growth *)

Lemma stopSendingCalls_app (a b : list call) :
  stopSendingCalls (a ++ b) = stopSendingCalls a ++ stopSendingCalls b.
Proof.
  induction a as [|c a IH]; cbn; [reflexivity|].
  destruct c; cbn; rewrite ?IH; reflexivity.
Qed.

Lemma onCloseCalls_app (a b : list call) :
  onCloseCalls (a ++ b) = onCloseCalls a ++ onCloseCalls b.
Proof.
  induction a as [|c a IH]; cbn; [reflexivity|].
  destruct c; cbn; rewrite ?IH; reflexivity.
Qed.

Lemma sendShutdownCalls_app (a b : list call) :
  sendShutdownCalls (a ++ b) = sendShutdownCalls a ++ sendShutdownCalls b.
Proof.
  induction a as [|c a IH]; cbn; [reflexivity|].
  destruct c; cbn; rewrite ?IH; reflexivity.
Qed.

Lemma recvShutdownCalls_app (a b : list call) :
  recvShutdownCalls (a ++ b) = recvShutdownCalls a ++ recvShutdownCalls b.
Proof.
  induction a as [|c a IH]; cbn; [reflexivity|].
  destruct c; cbn; rewrite ?IH; reflexivity.
Qed.

Ltac read_record :=
  cbn;
  rewrite ?stopSendingCalls_app, ?onCloseCalls_app, ?sendShutdownCalls_app,
    ?recvShutdownCalls_app;
  cbn;
  rewrite ?app_nil_r.

(** *** Deadlines *)

(** X1: [SetDeadline t] returns [nil] whatever the two setters of the
    halves return.  It sets the read deadline of the receive half and then
    the write deadline of the send half, both to [t], and does nothing
    else. *)
Theorem SetDeadline_never_fails (s : stream) (w : W) (t : Instant) :
  let st := snd (run (SetDeadline t) s w) in
  let rd := recv_SetReadDeadline t (receiveStream s) w in
  let wr := send_SetWriteDeadline t (sendStream s) (snd rd) in
  fst (run (SetDeadline t) s w) = None /\
  calls st = [RecvSetReadDeadline t; SendSetWriteDeadline t] /\
  receiveStream (self st) = snd (fst rd) /\
  sendStream (self st) = snd (fst wr) /\
  version (self st) = version s /\
  world st = snd wr.
Proof.
  unfold_methods.
  destruct (recv_SetReadDeadline t (receiveStream s) w) as [[e1 rs] w1]; cbn.
  destruct (send_SetWriteDeadline t (sendStream s) w1) as [[e2 ss] w2]; cbn.
  repeat split.
Qed.

(** *** Resets and the field [version] *)

(** X2: for a reset that the receive half accepts, [HandleRstStreamFrame]
    returns [nil].  If the field [version] is a legacy version, the send
    half gets exactly one stop-sending directive, after the receive half
    has handled the reset; the directive carries the stream identifier of
    the send half and the error code of the reset.  If the field is an
    IETF version, the send half gets none and stays as it was. *)
Theorem HandleRstStreamFrame_by_version_field (s : stream) (w : W)
    (frame : RstStreamFrame) (rs : R) (w1 : W) :
  recv_HandleRstStreamFrame frame (receiveStream s) w = (None, rs, w1) ->
  let st := snd (run (HandleRstStreamFrame UsesIETFFrameFormat frame) s w) in
  let directive := {| stop_StreamID := send_StreamID (sendStream s);
                      stop_ErrorCode := rst_ErrorCode frame |} in
  fst (run (HandleRstStreamFrame UsesIETFFrameFormat frame) s w) = None /\
  receiveStream (self st) = rs /\
  (UsesIETFFrameFormat (version s) = false ->
   stopSendingCalls (calls st) = [directive] /\
   (sendStream (self st), world st)
   = send_HandleStopSendingFrame directive (sendStream s) w1) /\
  (UsesIETFFrameFormat (version s) = true ->
   stopSendingCalls (calls st) = [] /\
   sendStream (self st) = sendStream s /\
   world st = w1).
Proof.
  intros Hr.
  pose proof (HandleRstStreamFrame_accepted UsesIETFFrameFormat _ _ _ Hr)
    as H.
  cbn zeta in H. destruct H as (H1 & H2 & _ & H3).
  split; [exact H1|]. split; [exact H2|].
  split; intros Hv; rewrite Hv in H3.
  - destruct H3 as (Hc & Hs). rewrite Hc. split; [reflexivity | exact Hs].
  - destruct H3 as (Hc & Hs & Hw). rewrite Hc. repeat split; assumption.
Qed.

(** With an IETF version in the field, a method call delivers a
    stop-sending directive only if it is [HandleStopSendingFrame]. *)
Lemma exec_stopSendingCalls (o : op) (st : state) :
  UsesIETFFrameFormat (version (self st)) = true ->
  stopSendingCalls (calls (snd (exec UsesIETFFrameFormat o st)))
  = stopSendingCalls (calls st) ++ stopSendingOps [o].
Proof.
  intros Hv. destruct o; unfold_methods;
    repeat (try rewrite Hv; cbn; split_result);
    try rewrite Hv; read_record; reflexivity.
Qed.

(** X4: on a stream whose field [version] is an IETF version, the
    stop-sending directives that reach the send half during any lifetime
    are exactly the frames that were passed to [HandleStopSendingFrame],
    in the same order: no other method synthesizes one. *)
Theorem IETF_version_no_synthesized_stop_sending
    (os : list op) (st : state) :
  UsesIETFFrameFormat (version (self st)) = true ->
  stopSendingCalls (calls (lifetime UsesIETFFrameFormat os st))
  = stopSendingCalls (calls st) ++ stopSendingOps os.
Proof.
  revert st. induction os as [|o os IH]; intros st Hv; cbn [lifetime].
  - cbn. rewrite app_nil_r. reflexivity.
  - rewrite IH by (rewrite exec_version; exact Hv).
    rewrite (exec_stopSendingCalls o st Hv), <- app_assoc.
    f_equal. destruct o; reflexivity.
Qed.

(** *** Closing *)

Lemma exec_onCloseCalls (o : op) (st : state) :
  (List.length (onCloseCalls (calls (snd (exec UsesIETFFrameFormat o st))))
   <= List.length (onCloseCalls (calls st)) + closeOps [o])%nat.
Proof.
  destruct o; unfold_methods; split_results; read_record;
    rewrite ?length_app; cbn; lia.
Qed.

(** X5: the receive half's [onClose] is invoked by [Close] only, and at
    most once per call: during any lifetime the number of [onClose] calls
    grows by no more than the number of [Close] calls. *)
Theorem onClose_only_from_Close (os : list op) (st : state) :
  (List.length (onCloseCalls (calls (lifetime UsesIETFFrameFormat os st)))
   <= List.length (onCloseCalls (calls st)) + closeOps os)%nat.
Proof.
  revert st. induction os as [|o os IH]; intros st; cbn [lifetime].
  - cbn. lia.
  - specialize (IH (snd (exec UsesIETFFrameFormat o st))).
    pose proof (exec_onCloseCalls o st) as Ho.
    assert (Hc : closeOps (o :: os) = (closeOps [o] + closeOps os)%nat)
      by (destruct o; reflexivity).
    lia.
Qed.

Lemma exec_shutdownCalls (o : op) (st : state) :
  sendShutdownCalls (calls (snd (exec UsesIETFFrameFormat o st)))
  = sendShutdownCalls (calls st) ++ shutdownOps [o] /\
  recvShutdownCalls (calls (snd (exec UsesIETFFrameFormat o st)))
  = recvShutdownCalls (calls st) ++ shutdownOps [o].
Proof.
  destruct o; unfold_methods; split_results; read_record;
    split; reflexivity.
Qed.

(** X3: the two halves are closed for shutdown together.  During any
    lifetime, the errors passed to the send half's [CloseForShutdown] and
    those passed to the receive half's are both exactly the errors that
    [CloseForShutdown] of the stream was called with, in the same order. *)
Theorem CloseForShutdown_halves_in_lockstep (os : list op) (st : state) :
  sendShutdownCalls (calls (lifetime UsesIETFFrameFormat os st))
  = sendShutdownCalls (calls st) ++ shutdownOps os /\
  recvShutdownCalls (calls (lifetime UsesIETFFrameFormat os st))
  = recvShutdownCalls (calls st) ++ shutdownOps os.
Proof.
  revert st. induction os as [|o os IH]; intros st; cbn [lifetime].
  - cbn. rewrite !app_nil_r. split; reflexivity.
  - destruct (IH (snd (exec UsesIETFFrameFormat o st))) as [IHs IHr].
    destruct (exec_shutdownCalls o st) as [Hs Hr].
    rewrite IHs, IHr, Hs, Hr, <- !app_assoc.
    assert (Hc : shutdownOps (o :: os) = shutdownOps [o] ++ shutdownOps os)
      by (destruct o; reflexivity).
    rewrite Hc. split; reflexivity.
Qed.

(** X6: if closing a half for shutdown leaves that half finished, then
    [Finished] returns true right after [CloseForShutdown]; if moreover no
    method of a half takes its [Finished] back, [Finished] returns true
    after any further method calls. *)
Theorem CloseForShutdown_finishes (s : stream) (w : W) (err : error E) :
  send_shutdown_finishes -> recv_shutdown_finishes ->
  let st := snd (run (CloseForShutdown err) s w) in
  fst (Finished st) = true /\
  (send_Finished_monotone -> recv_Finished_monotone ->
   forall os : list op,
     fst (Finished (lifetime UsesIETFFrameFormat os st)) = true).
Proof.
  intros Hs Hr st.
  assert (Hboth : send_Finished (sendStream (self st)) = true /\
                  recv_Finished (receiveStream (self st)) = true).
  { subst st. unfold_methods.
    pose proof (Hs err (sendStream s) w) as Hs'.
    destruct (send_CloseForShutdown err (sendStream s) w) as [ss w1].
    cbn in *.
    pose proof (Hr err (receiveStream s) w1) as Hr'.
    destruct (recv_CloseForShutdown err (receiveStream s) w1) as [rs w2].
    cbn in *. split; assumption. }
  destruct Hboth as [Ha Hb]. split.
  - rewrite Finished_result, Ha, Hb. reflexivity.
  - intros Ms Mr os. rewrite Finished_result, andb_true_iff.
    apply (lifetime_preserves UsesIETFFrameFormat Ms Mr os st Ha Hb).
Qed.

(** *** What depends on the field [version] *)

Lemma exec_with_version (o : op) (v : VersionNumber) (st : state) :
  reads_version o = false ->
  snd (exec UsesIETFFrameFormat o (with_version v st))
  = with_version v (snd (exec UsesIETFFrameFormat o st)).
Proof.
  intros Ho. destruct o; try discriminate Ho;
    unfold with_version; unfold_methods; split_results; reflexivity.
Qed.

(** X7: apart from [HandleRstStreamFrame], no method depends on the field
    [version].  [StreamID], [Close], [SetDeadline] and [Finished] return
    the same result for every value of the field, and a lifetime without
    [HandleRstStreamFrame] leaves the same halves, the same session state
    and the same record of calls for every value of the field. *)
Theorem version_read_by_HandleRstStreamFrame_only
    (v : VersionNumber) (st : state) :
  fst (StreamID (with_version v st)) = fst (StreamID st) /\
  fst (Close (with_version v st)) = fst (Close st) /\
  (forall t, fst (SetDeadline t (with_version v st))
             = fst (SetDeadline t st)) /\
  fst (Finished (with_version v st)) = fst (Finished st) /\
  (forall os : list op,
     existsb reads_version os = false ->
     lifetime UsesIETFFrameFormat os (with_version v st)
     = with_version v (lifetime UsesIETFFrameFormat os st)).
Proof.
  split; [reflexivity|].
  split; [unfold with_version; unfold_methods; split_results; reflexivity|].
  split; [intros t; unfold with_version; unfold_methods; split_results;
          reflexivity|].
  split; [unfold with_version; unfold_methods; split_results; reflexivity|].
  intros os. revert st.
  induction os as [|o os IH]; intros st Hos; cbn [lifetime].
  - reflexivity.
  - cbn in Hos. apply orb_false_iff in Hos. destruct Hos as [Ho Hos].
    rewrite (exec_with_version o v st Ho). apply IH. exact Hos.
Qed.

(** *** Where stop-sending directives come from *)

Lemma directive_origin_cons (id : protocol.StreamID) (o : op)
    (os : list op) (f : StopSendingFrame) :
  directive_origin id os f -> directive_origin id (o :: os) f.
Proof.
  intros [H | (frame & H & Hf)].
  - left. right. exact H.
  - right. exists frame. split; [right; exact H | exact Hf].
Qed.

Lemma exec_directive_origin (o : op) (st : state) :
  exists added : list StopSendingFrame,
    stopSendingCalls (calls (snd (exec UsesIETFFrameFormat o st)))
    = stopSendingCalls (calls st) ++ added /\
    Forall (directive_origin (send_StreamID (sendStream (self st))) [o])
           added.
Proof.
  destruct o; unfold_methods; split_results; read_record;
    try (exists []; split; [symmetry; apply app_nil_r | constructor]).
  - eexists. split; [reflexivity|].
    constructor; [|constructor].
    right. exists frame. split; [left; reflexivity | reflexivity].
  - eexists. split; [reflexivity|].
    constructor; [|constructor].
    left. left. reflexivity.
Qed.

Lemma lifetime_directive_origin (id : protocol.StreamID) (os : list op) :
  send_preserves (fun s => send_StreamID s = id) ->
  forall st : state,
    send_StreamID (sendStream (self st)) = id ->
    exists added : list StopSendingFrame,
      stopSendingCalls (calls (lifetime UsesIETFFrameFormat os st))
      = stopSendingCalls (calls st) ++ added /\
      Forall (directive_origin id os) added.
Proof.
  intros Hkeep. induction os as [|o os IH]; intros st Hid; cbn [lifetime].
  - exists []. split; [symmetry; apply app_nil_r | constructor].
  - destruct (exec_directive_origin o st) as (d & Hd & Pd).
    rewrite Hid in Pd.
    assert (Hid' : send_StreamID
                     (sendStream
                        (self (snd (exec UsesIETFFrameFormat o st)))) = id).
    { refine (proj1 (@exec_preserves _ _ _ _ _ _ _ _ _ _ UsesIETFFrameFormat
                       (fun s => send_StreamID s = id) (fun _ => True)
                       Hkeep _ o st Hid I)).
      constructor; intros; exact I. }
    destruct (IH _ Hid') as (d' & Hd' & Pd').
    exists (d ++ d'). split.
    + rewrite Hd', Hd, app_assoc. reflexivity.
    + apply Forall_app. split.
      * eapply Forall_impl; [|exact Pd].
        intros f [H | (frame & H & Hf)].
        -- left. destruct H as [H | []]. left. exact H.
        -- right. exists frame. destruct H as [H | []].
           split; [left; exact H | exact Hf].
      * eapply Forall_impl; [|exact Pd'].
        intros f. apply directive_origin_cons.
Qed.

(** X8: let no method of the send half change its stream identifier
    [id].  Then every stop-sending directive that reaches the send half
    during a lifetime either was passed by the session to
    [HandleStopSendingFrame], or carries [id] and the error code of a
    reset that the session passed to [HandleRstStreamFrame]. *)
Theorem stop_sending_directive_origin (id : protocol.StreamID)
    (s : stream) (w : W) (os : list op) :
  send_preserves (fun ss => send_StreamID ss = id) ->
  send_StreamID (sendStream s) = id ->
  Forall (directive_origin id os)
         (stopSendingCalls
            (calls (lifetime UsesIETFFrameFormat os
                      {| self := s; world := w; calls := [] |}))).
Proof.
  intros Hkeep Hid.
  destruct (@lifetime_directive_origin id os Hkeep
              {| self := s; world := w; calls := [] |} Hid)
    as (d & Hd & Pd).
  rewrite Hd. exact Pd.
Qed.

End StreamLifetimes.

(** ** The further properties at concrete streams *)

Section SpecHalvesLifetimes.

Import spec_halves.

Lemma spec_send_shutdown_finishes :
  send_shutdown_finishes (send := spec_sendStream).
Proof.
  intros err s w. cbn. unfold s_CloseForShutdown, s_Finished.
  destruct (s_shutdown s) eqn:Hs; cbn; [rewrite Hs|]; cbn;
    rewrite ?orb_true_r; reflexivity.
Qed.

Lemma spec_recv_shutdown_finishes :
  recv_shutdown_finishes (recv := spec_receiveStream).
Proof.
  intros err r w. cbn. unfold r_CloseForShutdown, r_Finished.
  destruct (r_shutdown r) eqn:Hr; cbn; [rewrite Hr|]; cbn;
    rewrite ?orb_true_r; reflexivity.
Qed.

Lemma HandleRstStreamFrame_by_version_field_witness :
  let st := snd (run (HandleRstStreamFrame UsesIETFFrameFormat (reset 3 0))
                     legacy4 []) in
  UsesIETFFrameFormat (version legacy4) = false /\
  stopSendingCalls (calls st)
  = [{| stop_StreamID := 4; stop_ErrorCode := 3 |}] /\
  s_stopped (sendStream (self st)) = Some 3.
Proof.
  split; [reflexivity|].
  eassert (Hr : recv_HandleRstStreamFrame (reset 3 0)
                  (receiveStream legacy4) [] = _)
    by (cbv; reflexivity).
  destruct (HandleRstStreamFrame_by_version_field UsesIETFFrameFormat
              _ _ _ Hr) as (_ & _ & Hlegacy & _).
  destruct (Hlegacy eq_refl) as (Hc & Hs).
  split; [exact Hc|].
  exact (f_equal (fun p => s_stopped (fst p)) Hs).
Defined.

Lemma IETF_version_no_synthesized_stop_sending_witness :
  let os := [OpSend (MWrite 10); OpClose;
             OpHandleRstStreamFrame (reset 3 10);
             OpHandleStopSendingFrame
               {| stop_StreamID := 4; stop_ErrorCode := 9 |}] in
  UsesIETFFrameFormat (version (self (fresh VersionTLS))) = true /\
  stopSendingCalls (calls (after VersionTLS os))
  = [{| stop_StreamID := 4; stop_ErrorCode := 9 |}].
Proof.
  split; [reflexivity|].
  exact (IETF_version_no_synthesized_stop_sending UsesIETFFrameFormat
           [OpSend (MWrite 10); OpClose;
            OpHandleRstStreamFrame (reset 3 10);
            OpHandleStopSendingFrame
              {| stop_StreamID := 4; stop_ErrorCode := 9 |}]
           (fresh VersionTLS) eq_refl).
Defined.

Lemma CloseForShutdown_finishes_witness :
  let st := snd (run (CloseForShutdown errShutdown)
                     (self (after Version39 [OpSend (MWrite 10)])) []) in
  fst (Finished st) = true /\
  fst (Finished (lifetime UsesIETFFrameFormat
                   [OpClose; OpSend (MWrite 1);
                    OpHandleRstStreamFrame (reset 3 0)] st)) = true.
Proof.
  destruct (CloseForShutdown_finishes UsesIETFFrameFormat
              (self (after Version39 [OpSend (MWrite 10)])) [] errShutdown
              spec_send_shutdown_finishes spec_recv_shutdown_finishes)
    as (H1 & H2).
  split; [exact H1|].
  exact (H2 spec_send_Finished_monotone spec_recv_Finished_monotone _).
Defined.

Lemma version_read_by_HandleRstStreamFrame_only_witness :
  let os := [OpSend (MWrite 10); OpClose; OpCloseForShutdown errShutdown] in
  existsb reads_version os = false /\
  lifetime UsesIETFFrameFormat os (with_version Version39 (fresh Version39))
  = with_version Version39 (after Version39 os).
Proof.
  split; [reflexivity|].
  exact (proj2 (proj2 (proj2 (proj2
           (version_read_by_HandleRstStreamFrame_only UsesIETFFrameFormat
              Version39 (fresh Version39)))))
           [OpSend (MWrite 10); OpClose; OpCloseForShutdown errShutdown]
           eq_refl).
Defined.

Lemma stop_sending_directive_origin_witness :
  let os := [OpHandleRstStreamFrame (reset 3 0);
             OpHandleStopSendingFrame
               {| stop_StreamID := 4; stop_ErrorCode := 9 |}] in
  stopSendingCalls
    (calls (lifetime UsesIETFFrameFormat os
              {| self := legacy4; world := []; calls := [] |}))
  = [{| stop_StreamID := 4; stop_ErrorCode := 3 |};
     {| stop_StreamID := 4; stop_ErrorCode := 9 |}] /\
  Forall (directive_origin 4 os)
         (stopSendingCalls
            (calls (lifetime UsesIETFFrameFormat os
                      {| self := legacy4; world := []; calls := [] |}))).
Proof.
  split; [reflexivity|].
  exact (stop_sending_directive_origin UsesIETFFrameFormat (id := 4)
           legacy4 []
           [OpHandleRstStreamFrame (reset 3 0);
            OpHandleStopSendingFrame
              {| stop_StreamID := 4; stop_ErrorCode := 9 |}]
           (proj2 spec_send_StreamID_fixed 4) eq_refl).
Defined.

End SpecHalvesLifetimes.
